(** * s3-like-go: the object store of [main.go]

    A shallow embedding of [Storage] (the in-memory table of objects that
    sits in front of the directory [STORAGE_DIR]), of its methods [Save]
    and [Load], and of the listing built by [HandleList].

    Every method of [Storage], and [HandleList], takes the one mutex
    [mu] with [Lock] for its whole body and releases it with a deferred
    [Unlock].  The operations therefore execute one after the other, and
    each is modelled as a function from the state before it to the state
    after it.  The mutex itself carries no data and has no field in the
    model.  Output written with the [log] package is not modelled. *)

From Stdlib Require Import Ascii.
From stdpp Require Import gmap strings list fin_maps.

Local Open Scope string_scope.
Local Open Scope list_scope.

(** ** Values of the Go program *)

(** [[]byte].  A nil slice and an empty slice are both the empty list:
    the program never compares a slice with nil. *)
Abbreviation bytes := (list Byte.byte).

(** The error numbers the [os] package can report for the three calls
    the program makes. *)
Inductive errno : Set :=
  | ENOENT | EIO | EACCES | ENOSPC | EISDIR | ENOTDIR.

(** Values of Go's [error] interface that reach the program: the error
    built in [Save] with [fmt.Errorf("object %v already exists", key)],
    and the [*fs.PathError] returned by the [os] package. *)
Inductive error : Set :=
  | Errorf_already_exists (key : string)
  | PathError (op path : string) (e : errno).

(** A Go pair [(value, err)] whose [err] is nil exactly when the value is
    meaningful. *)
Inductive result (A : Type) : Type :=
  | Ok (a : A)
  | Err (e : error).
Arguments Ok {A} a.
Arguments Err {A} e.

(** [type obj struct { name string; body []byte }] *)
Record obj : Set := Obj { name : string; body : bytes }.

(** The zero value [obj{}]. *)
Definition obj_zero : obj := Obj "" [].

(** [type Storage struct { mu sync.RWMutex; files map[string]obj }] *)
Record Storage : Type := mkStorage { files : gmap string obj }.

(** [NewStorage]: an empty table. *)
Definition NewStorage : Storage := mkStorage ∅.

Definition STORAGE_DIR : string := "/storage".

(** The path [STORAGE_DIR + "/" + key] that [Save] and [Load] hand to the
    [os] package. *)
Definition object_path (key : string) : string :=
  STORAGE_DIR +:+ "/" +:+ key.

(** ** The durable layer

    The program reaches the disk through three calls of package [os].
    They are an interface here: a type [D] of disk states and the three
    calls as functions on it.  [os.ReadFile] and [os.ReadDir] do not
    change the disk; [os.WriteFile] returns the new disk together with
    its error ([None] for nil).  [os.ReadDir] is reduced to the
    [Name()] of each entry, in the order returned. *)
Class DurableLayer (D : Type) : Type := {
  os_WriteFile : D → string → bytes → D * option error;
  os_ReadFile : D → string → result bytes;
  os_ReadDir : D → string → result (list string)
}.

(** The local [type List struct { Name string; InCach bool }] of
    [HandleList]. *)
Record List : Set := mkList { Name : string; InCach : bool }.

(** What a call of [HandleList] does to its caller: it answers (with
    an error status or with the listing that is then JSON-encoded), or
    it panics through [log.Panicf] with the directory and the error
    as arguments of the format. *)
Inductive list_outcome : Type :=
  | MethodNotAllowed
  | Panicf (dir : string) (err : error)
  | Listing (keys : list List).

(** ** Storage.Save and Storage.Load *)

Section storage.
Context {D : Type} `{!DurableLayer D}.

(** [func (s *Storage) Save(key string, data []byte) error].
    The table is updated before the file is written, and the early
    return on a write error leaves the table updated. *)
Definition Save (s : Storage) (d : D) (key : string) (data : bytes)
  : Storage * D * option error :=
  match files s !! key with
  | Some _ => (s, d, Some (Errorf_already_exists key))
  | None =>
      let s1 := mkStorage (<[key := Obj key data]> (files s)) in
      let '(d1, err) := os_WriteFile d (object_path key) data in
      match err with
      | Some e => (s1, d1, Some e)
      | None => (s1, d1, None)
      end
  end.

(** [func (s *Storage) Load(key string) (obj, bool)].
    [data] is the result of the table lookup; on a miss it is the zero
    [obj], and it is [data] that the last [return] hands back after
    the file read from disk has been stored in the table. *)
Definition Load (s : Storage) (d : D) (key : string)
  : Storage * (obj * bool) :=
  let '(data, exists_) :=
    match files s !! key with
    | Some o => (o, true)
    | None => (obj_zero, false)
    end in
  if exists_ then (s, (data, true))
  else
    match os_ReadFile d (object_path key) with
    | Err _ => (s, (obj_zero, false))
    | Ok file =>
        (mkStorage (<[key := Obj key file]> (files s)), (data, true))
    end.

(** ** HandleList *)

Definition http_MethodGet : string := "GET".

(** The first loop: [for key := range storage.files], one entry per
    key of the table.  Go leaves the order of a map range unspecified;
    the model takes the order of [map_to_list]. *)
Definition cached_entries (s : Storage) : list List :=
  (λ kv, mkList kv.1 true) <$> map_to_list (files s).

(** The second loop: the directory entries that are not in the table. *)
Definition disk_only_entries (s : Storage) (names : list string)
  : list List :=
  (λ f, mkList f false)
    <$> filter (λ f, files s !! f = None) names.

(** [func HandleList(w, r, storage)], with [method] for [r.Method]. *)
Definition HandleList (method : string) (s : Storage) (d : D)
  : list_outcome :=
  if negb (String.eqb method http_MethodGet) then MethodNotAllowed
  else
    match os_ReadDir d STORAGE_DIR with
    | Err err => Panicf STORAGE_DIR err
    | Ok names => Listing (cached_entries s ++ disk_only_entries s names)
    end.

(** ** One operation as a step on the pair of table and disk *)

Inductive operation : Type :=
  | OpSave (key : string) (data : bytes)
  | OpLoad (key : string)
  | OpList (method : string).

(** [HandleList] assigns neither to [storage.files] nor to the disk. *)
Definition step (o : operation) (st : Storage * D) : Storage * D :=
  match o with
  | OpSave key data => (Save st.1 st.2 key data).1
  | OpLoad key => ((Load st.1 st.2 key).1, st.2)
  | OpList _ => st
  end.

End storage.

(** ** A simulated disk

    A small instance of the durable layer on which the operations can be
    run: one directory [STORAGE_DIR] of regular files, which may be
    missing, may be read-only, and may hold files whose content cannot be
    read back. *)
Module Sim.

Record disk : Type := mkDisk {
  root : option (gmap string bytes);
  read_only : bool;
  unreadable : gset string
}.

Fixpoint strip_prefix (p s : string) : option string :=
  match p, s with
  | EmptyString, _ => Some s
  | String a p', String b s' =>
      if Ascii.eqb a b then strip_prefix p' s' else None
  | String _ _, EmptyString => None
  end.

Fixpoint has_slash (s : string) : bool :=
  match s with
  | EmptyString => false
  | String a s' => Ascii.eqb a "/"%char || has_slash s'
  end.

(** The directory a path lies in, as the simulation sees it: the file
    name when the path is [STORAGE_DIR/name], no subdirectory exists. *)
Definition file_name (path : string) : result string :=
  match strip_prefix (STORAGE_DIR +:+ "/") path with
  | None => Err (PathError "open" path ENOENT)
  | Some nm =>
      if String.eqb nm "" then Err (PathError "open" path EISDIR)
      else if has_slash nm then Err (PathError "open" path ENOENT)
      else Ok nm
  end.

Definition WriteFile (d : disk) (path : string) (data : bytes)
  : disk * option error :=
  match file_name path, root d with
  | Err e, _ => (d, Some e)
  | Ok _, None => (d, Some (PathError "open" path ENOENT))
  | Ok nm, Some m =>
      if read_only d then (d, Some (PathError "open" path EACCES))
      else (mkDisk (Some (<[nm := data]> m)) (read_only d)
                   (unreadable d ∖ {[nm]}), None)
  end.

Definition ReadFile (d : disk) (path : string) : result bytes :=
  match file_name path, root d with
  | Err e, _ => Err e
  | Ok _, None => Err (PathError "open" path ENOENT)
  | Ok nm, Some m =>
      match m !! nm with
      | None => Err (PathError "open" path ENOENT)
      | Some b =>
          if bool_decide (nm ∈ unreadable d)
          then Err (PathError "read" path EIO)
          else Ok b
      end
  end.

Definition ReadDir (d : disk) (dir : string) : result (list string) :=
  if negb (String.eqb dir STORAGE_DIR)
  then Err (PathError "open" dir ENOENT)
  else
    match root d with
    | None => Err (PathError "open" dir ENOENT)
    | Some m => Ok (map_to_list m).*1
    end.

#[global] Instance durable : DurableLayer disk :=
  {| os_WriteFile := WriteFile; os_ReadFile := ReadFile;
     os_ReadDir := ReadDir |}.

(** A healthy disk holding the given files. *)
Definition healthy (m : gmap string bytes) : disk :=
  mkDisk (Some m) false ∅.

End Sim.

(** Some bytes to run the operations on. *)
Definition hello : bytes := [Byte.x68; Byte.x65; Byte.x6c; Byte.x6c; Byte.x6f].
Definition world : bytes := [Byte.x77; Byte.x6f; Byte.x72; Byte.x6c; Byte.x64].

(** Disks to run the operations on. *)
Definition disk_empty : Sim.disk := Sim.healthy ∅.
Definition disk_a : Sim.disk := Sim.healthy {[ "a" := hello ]}.
Definition disk_ab : Sim.disk :=
  Sim.healthy (<["a" := hello]> {[ "b" := world ]}).
Definition disk_read_only : Sim.disk := Sim.mkDisk (Some ∅) true ∅.
Definition disk_io_error : Sim.disk :=
  Sim.mkDisk (Some {[ "a" := hello ]}) false {[ "a" ]}.
Definition disk_no_root : Sim.disk := Sim.mkDisk None false ∅.

(** ** The words of the specification *)

Section words.
Context {D : Type} `{!DurableLayer D}.

(** A key is in the cache when the table has an entry for it. *)
Definition cached (s : Storage) (key : string) : Prop :=
  is_Some (files s !! key).

(** A key is in the durable layer with body [b] when reading its file
    succeeds with [b]; it is absent when the read fails. *)
Definition durable_body (d : D) (key : string) (b : bytes) : Prop :=
  os_ReadFile d (object_path key) = Ok b.

Definition durable_read_fails (d : D) (key : string) (e : error) : Prop :=
  os_ReadFile d (object_path key) = Err e.

(** The durable layer's keys are the names its enumeration returns. *)
Definition durable_keys (d : D) (names : list string) : Prop :=
  os_ReadDir d STORAGE_DIR = Ok names.

(** [Load] reports [found]. *)
Definition found (r : Storage * (obj * bool)) : bool := r.2.2.

(** The body [Load] hands back. *)
Definition loaded (r : Storage * (obj * bool)) : bytes := body r.2.1.

(** An outcome of [HandleList] that reaches the caller as a value. *)
Definition returns_to_caller (r : list_outcome) : Prop :=
  match r with
  | Panicf _ _ => False
  | MethodNotAllowed | Listing _ => True
  end.

End words.

(** ** The upload and download handlers *)

Definition UPLOAD_PREFIX_LEN : nat := String.length "/upload/".
Definition DOWNLOAD_PREFIX_LEN : nat := String.length "/download/".

Definition http_MethodPost : string := "POST".
Definition http_StatusOK : nat := 200.
Definition http_StatusNotFound : nat := 404.
Definition http_StatusMethodNotAllowed : nat := 405.
Definition http_StatusConflict : nat := 409.
Definition http_StatusInternalServerError : nat := 500.

(** Go's [s[n:]] on a string: the bytes of [s] from offset [n] on.  When
    [n] is larger than the length of [s] the Go run time panics (slice
    bounds out of range); that is [None]. *)
Fixpoint slice_from (n : nat) (s : string) : option string :=
  match n, s with
  | O, _ => Some s
  | S n', String _ s' => slice_from n' s'
  | S _, EmptyString => None
  end.

(** What a handler reads of [*http.Request]: [r.Method], [r.URL.Path],
    and the pair returned by [io.ReadAll(r.Body)]. *)
Record Request : Type := mkRequest {
  Method : string;
  URL_Path : string;
  ReadAll_Body : result bytes
}.

(** The calls a handler makes on its [http.ResponseWriter], in order.
    [http_Error_of e code] is [http.Error(w, err.Error(), code)] for the
    error [e]; [Fprintf text] is [fmt.Fprintf(w, ...)] with the formatted
    text. *)
Inductive writer_call : Type :=
  | http_Error (msg : string) (code : nat)
  | http_Error_of (e : error) (code : nat)
  | WriteHeader (code : nat)
  | Fprintf (text : string)
  | Write (b : bytes).

(** A handler returns after its calls on the writer, or panics on the
    slice expression that cuts the key out of the path. *)
Inductive handled : Type :=
  | Replied (calls : list writer_call)
  | SlicePanic.

Section handlers.
Context {D : Type} `{!DurableLayer D}.

(** [func HandleUpload(w, r, storage)] *)
Definition HandleUpload (r : Request) (s : Storage) (d : D)
  : Storage * D * handled :=
  if negb (String.eqb (Method r) http_MethodPost)
  then (s, d, Replied [http_Error "Метод не поддерживается"
                         http_StatusMethodNotAllowed])
  else
    match slice_from UPLOAD_PREFIX_LEN (URL_Path r) with
    | None => (s, d, SlicePanic)
    | Some key =>
        match ReadAll_Body r with
        | Err _ =>
            (s, d, Replied [http_Error "Ошибка чтения данных"
                              http_StatusInternalServerError])
        | Ok data =>
            let '(s1, d1, err) := Save s d key data in
            match err with
            | Some e => (s1, d1, Replied [http_Error_of e http_StatusConflict])
            | None =>
                (s1, d1,
                 Replied [WriteHeader http_StatusOK;
                          Fprintf ("Объект " +:+ key +:+ " успешно сохранен")])
            end
        end
    end.

(** [func HandleDownload(w, r, storage)].  It does not write to the
    disk, so only the table is returned. *)
Definition HandleDownload (r : Request) (s : Storage) (d : D)
  : Storage * handled :=
  if negb (String.eqb (Method r) http_MethodGet)
  then (s, Replied [http_Error "Метод не поддерживается"
                      http_StatusMethodNotAllowed])
  else
    match slice_from DOWNLOAD_PREFIX_LEN (URL_Path r) with
    | None => (s, SlicePanic)
    | Some key =>
        let '(s1, (data, exists_)) := Load s d key in
        if negb exists_
        then (s1, Replied [http_Error "Объект не найден" http_StatusNotFound])
        else (s1, Replied [WriteHeader http_StatusOK; Write (body data)])
    end.

(** ** Sequences of operations *)

(** The operations of a list, one after the other. *)
Definition run (ops : list operation) (st : Storage * D) : Storage * D :=
  foldl (λ st o, step o st) st ops.

(** The key an operation is called with. *)
Definition op_key (o : operation) : option string :=
  match o with
  | OpSave key _ | OpLoad key => Some key
  | OpList _ => None
  end.

(** Every object of the table is stored under its own name. *)
Definition well_named (s : Storage) : Prop :=
  ∀ k o, files s !! k = Some o → name o = k.

End handlers.

(** Requests to run the handlers on. *)
Definition POST (key : string) (data : bytes) : Request :=
  mkRequest "POST" ("/upload/" +:+ key) (Ok data).
Definition GET (key : string) : Request :=
  mkRequest "GET" ("/download/" +:+ key) (Ok []).

(** * Properties *)

Example run_save_load :
  let '(s1, d1, e1) := Save NewStorage (Sim.healthy ∅) "report.txt" hello in
  let '(s2, d2, e2) := Save s1 d1 "report.txt" world in
  e1 = None ∧ e2 = Some (Errorf_already_exists "report.txt")
  ∧ (Load s2 d2 "report.txt").2 = (Obj "report.txt" hello, true)
  ∧ HandleList "GET" s2 d2 = Listing [mkList "report.txt" true].
Proof. vm_compute. done. Qed.

(** ** Equations of [Save] and [Load], case by case *)

Section equations.
Context {D : Type} `{!DurableLayer D}.
Implicit Types (s : Storage) (d : D) (key : string) (data : bytes).

Lemma Save_present s d key data o :
  files s !! key = Some o →
  Save s d key data = (s, d, Some (Errorf_already_exists key)).
Proof. intros Hk. unfold Save. by rewrite Hk. Qed.

Lemma Save_fresh s d key data :
  files s !! key = None →
  Save s d key data =
    (mkStorage (<[key := Obj key data]> (files s)),
     (os_WriteFile d (object_path key) data).1,
     (os_WriteFile d (object_path key) data).2).
Proof.
  intros Hk. unfold Save. rewrite Hk.
  destruct (os_WriteFile d (object_path key) data) as [d1 [e|]]; done.
Qed.

Lemma Load_hit s d key o :
  files s !! key = Some o → Load s d key = (s, (o, true)).
Proof. intros Hk. unfold Load. by rewrite Hk. Qed.

Lemma Load_miss_read s d key file :
  files s !! key = None →
  os_ReadFile d (object_path key) = Ok file →
  Load s d key =
    (mkStorage (<[key := Obj key file]> (files s)), (obj_zero, true)).
Proof. intros Hk Hr. unfold Load. by rewrite Hk, Hr. Qed.

Lemma Load_miss_error s d key e :
  files s !! key = None →
  os_ReadFile d (object_path key) = Err e →
  Load s d key = (s, (obj_zero, false)).
Proof. intros Hk Hr. unfold Load. by rewrite Hk, Hr. Qed.

(** Whatever happens, the entries of the table survive [Save] and
    [Load]. *)
Lemma Save_keeps s d key data k o :
  files s !! k = Some o → files (Save s d key data).1.1 !! k = Some o.
Proof.
  intros Hk. destruct (files s !! key) as [o'|] eqn:Hkey.
  - by rewrite (Save_present _ _ _ _ o').
  - rewrite Save_fresh by done. simpl.
    rewrite lookup_insert_ne; [done | congruence].
Qed.

Lemma Load_keeps s d key k o :
  files s !! k = Some o → files (Load s d key).1 !! k = Some o.
Proof.
  intros Hk. destruct (files s !! key) as [o'|] eqn:Hkey.
  - by rewrite (Load_hit _ _ _ o').
  - destruct (os_ReadFile d (object_path key)) as [file|e] eqn:Hr.
    + rewrite (Load_miss_read _ _ _ file) by done. simpl.
      rewrite lookup_insert_ne; [done | congruence].
    + by rewrite (Load_miss_error _ _ _ e).
Qed.

End equations.

(** ** Read-through ([Load] on a key that is only on disk) *)

(** C1.  The claim: for a key absent from the cache and present in the
    durable layer with body [B], [Load] caches the key and returns [B]
    with found = true; after a successful [Save "a" X] and a restart
    (empty cache, same disk), [Load "a"] returns [X].
    On the code the key is cached with [B] and found is true, but the
    object handed back is the zero [obj]: with "a" holding [hello] on
    disk and an empty cache, [Load "a"] returns an empty body, and so
    it does after [Save "a" hello] followed by a restart. *)
Theorem Load_read_through_returns_zero_obj :
  files NewStorage !! "a" = None
  ∧ durable_body disk_a "a" hello
  ∧ Load NewStorage disk_a "a"
      = (mkStorage {[ "a" := Obj "a" hello ]}, (obj_zero, true))
  ∧ loaded (Load NewStorage disk_a "a") = []
  ∧ loaded (Load NewStorage disk_a "a") ≠ hello
  ∧ (let '(_, d1, err) := Save NewStorage disk_empty "a" hello in
     err = None
     ∧ durable_body d1 "a" hello
     ∧ found (Load NewStorage d1 "a") = true
     ∧ loaded (Load NewStorage d1 "a") = []).
Proof. vm_compute. repeat split; done. Qed.

(** The same for every durable layer, table and key: on a miss that the
    disk answers, the key is cached with the body read, and the object
    returned is the zero [obj]. *)
Lemma Load_read_through {D} `{!DurableLayer D}
    (s : Storage) (d : D) (key : string) (B : bytes) :
  ¬ cached s key → durable_body d key B →
  files (Load s d key).1 !! key = Some (Obj key B)
  ∧ found (Load s d key) = true
  ∧ loaded (Load s d key) = [].
Proof.
  unfold cached, durable_body. intros Hk%eq_None_not_Some Hr.
  rewrite (Load_miss_read _ _ _ B) by done. simpl.
  by rewrite lookup_insert_eq.
Qed.

(** ** A failed write *)

(** C2, the claim refuted: on the read-only disk the write of
    [Save "a" hello] fails, [Save] returns that failure, and the cache
    after the call is not the cache before it: "a" is in it. *)
Lemma Save_failed_write_changes_cache :
  let '(s1, _, err) := Save NewStorage disk_read_only "a" hello in
  (os_WriteFile disk_read_only (object_path "a") hello).2
    = Some (PathError "open" "/storage/a" EACCES)
  ∧ err = Some (PathError "open" "/storage/a" EACCES)
  ∧ files s1 ≠ files NewStorage
  ∧ files s1 !! "a" = Some (Obj "a" hello).
Proof.
  vm_compute. repeat split; done.
Qed.

(** C2, amended.  For every key absent from the cache and every data, if
    the durable write performed by [Save] fails with [e], then [Save]
    returns [e], and the cache after the call is the cache before it
    with the key bound to the object made of the key and the data:
    the key is left in the cache, and every other key is as before. *)
Theorem Save_failed_write_leaves_entry {D} `{!DurableLayer D}
    (s : Storage) (d : D) (key : string) (data : bytes) (e : error) :
  ¬ cached s key →
  (os_WriteFile d (object_path key) data).2 = Some e →
  (Save s d key data).2 = Some e
  ∧ files (Save s d key data).1.1 = <[key := Obj key data]> (files s)
  ∧ files (Save s d key data).1.1 !! key = Some (Obj key data)
  ∧ ∀ k, k ≠ key → files (Save s d key data).1.1 !! k = files s !! k.
Proof.
  unfold cached. intros Hk%eq_None_not_Some Hw.
  rewrite Save_fresh by done. simpl.
  repeat split; [done | by rewrite lookup_insert_eq |].
  intros k Hne. by rewrite lookup_insert_ne.
Qed.

Lemma Save_failed_write_leaves_entry_witness :
  ¬ cached NewStorage "a"
  ∧ (os_WriteFile disk_read_only (object_path "a") hello).2
      = Some (PathError "open" "/storage/a" EACCES)
  ∧ (Save NewStorage disk_read_only "a" hello).2
      = Some (PathError "open" "/storage/a" EACCES)
  ∧ files (Save NewStorage disk_read_only "a" hello).1.1 !! "a"
      = Some (Obj "a" hello).
Proof.
  assert (Hk : ¬ cached NewStorage "a") by (intros [o Ho]; done).
  assert (Hw : (os_WriteFile disk_read_only (object_path "a") hello).2
               = Some (PathError "open" "/storage/a" EACCES))
    by reflexivity.
  destruct (Save_failed_write_leaves_entry
              NewStorage disk_read_only "a" hello _ Hk Hw)
    as (He & _ & Ha & _).
  repeat split; assumption.
Defined.

(** ** No overwrite *)

(** For a key that is in the cache, [Save] fails with the
    already-exists error and changes neither the table nor the disk. *)
Lemma Save_cached_rejected {D} `{!DurableLayer D}
    (s : Storage) (d : D) (key : string) (data2 : bytes) :
  cached s key →
  Save s d key data2 = (s, d, Some (Errorf_already_exists key)).
Proof. intros [o Ho]. by apply Save_present with o. Qed.

(** C3.  The claim: [Save] fails, and mutates nothing, for every key that
    is in the cache or in the durable layer.
    On the code the existence test looks at the table only.  With "a"
    holding [hello] on disk and an empty cache (the state after a
    restart), [Save "a" world] succeeds, caches [world] and replaces the
    content of the file. *)
Theorem Save_overwrites_disk_only_key :
  ¬ cached NewStorage "a"
  ∧ durable_body disk_a "a" hello
  ∧ (let '(s1, d1, err) := Save NewStorage disk_a "a" world in
     err = None
     ∧ files s1 = {[ "a" := Obj "a" world ]}
     ∧ d1 = Sim.healthy {[ "a" := world ]}
     ∧ durable_body d1 "a" world
     ∧ d1 ≠ disk_a).
Proof.
  split; [by intros [o Ho] |]. vm_compute. repeat split; done.
Qed.

(** ** Save, then Load, then Save again *)

(** C4.  After [Save key data] returns success, [Load key] returns the
    data with found = true; a further [Save key data2] returns the
    already-exists error, changes neither table nor disk, and [Load key]
    after it returns what it returned before. *)
Theorem Save_then_Load_then_Save {D} `{!DurableLayer D}
    (s s1 : Storage) (d d1 : D) (key : string) (data : bytes) :
  Save s d key data = (s1, d1, None) →
  Load s1 d1 key = (s1, (Obj key data, true))
  ∧ loaded (Load s1 d1 key) = data
  ∧ found (Load s1 d1 key) = true
  ∧ ∀ data2 : bytes,
      Save s1 d1 key data2 = (s1, d1, Some (Errorf_already_exists key))
      ∧ Load (Save s1 d1 key data2).1.1 (Save s1 d1 key data2).1.2 key
          = Load s1 d1 key.
Proof.
  intros HS.
  assert (Hc : files s1 !! key = Some (Obj key data)).
  { destruct (files s !! key) as [o|] eqn:Hk.
    - rewrite (Save_present _ _ _ _ o) in HS by done. congruence.
    - rewrite Save_fresh in HS by done. injection HS as <- _ _.
      simpl. by rewrite lookup_insert_eq. }
  rewrite (Load_hit _ _ _ _ Hc). repeat split.
  - by rewrite (Save_present _ _ _ _ _ Hc).
  - rewrite (Save_present _ _ _ _ _ Hc). simpl. by rewrite (Load_hit _ _ _ _ Hc).
Qed.

Lemma Save_then_Load_then_Save_witness :
  Save NewStorage disk_empty "report.txt" hello
    = (mkStorage {[ "report.txt" := Obj "report.txt" hello ]},
       Sim.healthy {[ "report.txt" := hello ]}, None)
  ∧ loaded (Load (mkStorage {[ "report.txt" := Obj "report.txt" hello ]})
                 (Sim.healthy {[ "report.txt" := hello ]}) "report.txt")
      = hello
  ∧ Save (mkStorage {[ "report.txt" := Obj "report.txt" hello ]})
         (Sim.healthy {[ "report.txt" := hello ]}) "report.txt" world
      = (mkStorage {[ "report.txt" := Obj "report.txt" hello ]},
         Sim.healthy {[ "report.txt" := hello ]},
         Some (Errorf_already_exists "report.txt")).
Proof.
  assert (HS : Save NewStorage disk_empty "report.txt" hello
    = (mkStorage {[ "report.txt" := Obj "report.txt" hello ]},
       Sim.healthy {[ "report.txt" := hello ]}, None))
    by (vm_compute; reflexivity).
  destruct (Save_then_Load_then_Save _ _ _ _ _ _ HS) as (_ & HL & _ & H2).
  split; [exact HS |]. split; [exact HL |]. exact (proj1 (H2 world)).
Defined.

(** ** Reading twice *)

(** Two consecutive [Load]s of a key that is in the cache return the
    same object, and the table is the same after each. *)
Lemma Load_twice_cached {D} `{!DurableLayer D}
    (s : Storage) (d : D) (key : string) :
  cached s key →
  (Load s d key).1 = s ∧ Load (Load s d key).1 d key = Load s d key.
Proof.
  intros [o Ho]. rewrite (Load_hit _ _ _ _ Ho). simpl.
  by rewrite (Load_hit _ _ _ _ Ho).
Qed.

(** C5.  The claim: for a key in the cache or in the durable layer, two
    consecutive [Load]s return identical bytes, the second a cache hit.
    On the code, for a key that is only on disk the first [Load] hands
    back the zero [obj] and the second the cached object: with "a"
    holding [hello] on disk and an empty cache, the first call returns
    an empty body and the second returns [hello]. *)
Theorem Load_twice_disk_only_differs :
  ¬ cached NewStorage "a"
  ∧ durable_body disk_a "a" hello
  ∧ (let r1 := Load NewStorage disk_a "a" in
     let r2 := Load r1.1 disk_a "a" in
     found r1 = true ∧ found r2 = true
     ∧ cached r1.1 "a"
     ∧ loaded r1 = []
     ∧ loaded r2 = hello
     ∧ loaded r1 ≠ loaded r2).
Proof.
  split; [by intros [o Ho] |].
  split; [reflexivity |]. cbv zeta.
  assert (H1 : Load NewStorage disk_a "a"
    = (mkStorage {[ "a" := Obj "a" hello ]}, (obj_zero, true)))
    by (vm_compute; reflexivity).
  rewrite H1. simpl.
  assert (H2 : Load (mkStorage {[ "a" := Obj "a" hello ]}) disk_a "a"
    = (mkStorage {[ "a" := Obj "a" hello ]}, (Obj "a" hello, true)))
    by (vm_compute; reflexivity).
  rewrite H2. repeat split; try done.
  eexists. by vm_compute.
Qed.

(** ** Listing *)

Section listing.
Context {D : Type} `{!DurableLayer D}.
Implicit Types (s : Storage) (d : D) (names : list string).

Lemma cached_entries_names s :
  Name <$> cached_entries s = (map_to_list (files s)).*1.
Proof.
  unfold cached_entries. rewrite <- list_fmap_compose.
  by apply list_fmap_ext.
Qed.

Lemma disk_only_entries_names s names :
  Name <$> disk_only_entries s names
  = filter (λ f, files s !! f = None) names.
Proof.
  unfold disk_only_entries. rewrite <- list_fmap_compose.
  rewrite <- (list_fmap_id (filter _ names)) at 2.
  by apply list_fmap_ext.
Qed.

Lemma elem_of_cached_names s k :
  k ∈ Name <$> cached_entries s ↔ cached s k.
Proof.
  rewrite cached_entries_names. unfold cached. split.
  - intros [[k' o] [-> Hin]]%list_elem_of_fmap.
    apply elem_of_map_to_list in Hin. by exists o.
  - intros [o Ho]. apply list_elem_of_fmap. exists (k, o).
    split; [done |]. by apply elem_of_map_to_list.
Qed.

Lemma elem_of_disk_only_names s names k :
  k ∈ Name <$> disk_only_entries s names ↔ k ∈ names ∧ ¬ cached s k.
Proof.
  rewrite disk_only_entries_names, list_elem_of_filter.
  unfold cached. rewrite eq_None_not_Some. tauto.
Qed.

Lemma cached_entries_flag s e :
  e ∈ cached_entries s → InCach e = true ∧ cached s (Name e).
Proof.
  intros He. split.
  - unfold cached_entries in He.
    apply list_elem_of_fmap in He as [kv [-> _]]. done.
  - apply elem_of_cached_names, list_elem_of_fmap. by exists e.
Qed.

Lemma disk_only_entries_flag s names e :
  e ∈ disk_only_entries s names → InCach e = false ∧ ¬ cached s (Name e).
Proof.
  intros He. split.
  - unfold disk_only_entries in He.
    apply list_elem_of_fmap in He as [f [-> _]]. done.
  - apply (elem_of_disk_only_names s names), list_elem_of_fmap. by exists e.
Qed.

Lemma listing_NoDup s names :
  NoDup names →
  NoDup (Name <$> (cached_entries s ++ disk_only_entries s names)).
Proof.
  intros Hnd. rewrite fmap_app. apply NoDup_app. split; [| split].
  - rewrite cached_entries_names. apply NoDup_fst_map_to_list.
  - intros k Hc%elem_of_cached_names [_ Hn]%elem_of_disk_only_names. done.
  - rewrite disk_only_entries_names. by apply NoDup_filter.
Qed.

End listing.

(** C6.  When the durable layer enumerates to [names] (the names of a
    directory, each once), a GET listing has exactly one entry per key of
    the union of the cache's keys and [names], and the flag of every
    entry, so of every durable key, is true exactly when the key is in
    the cache.  With "a" and "b" on disk and "a" cached by a prior
    [Load], the listing is "a" with true and "b" with false. *)
Theorem HandleList_complete :
  (∀ D (H : DurableLayer D) (s : Storage) (d : D) (names : list string),
     durable_keys d names → NoDup names →
     ∃ keys : list List,
       HandleList "GET" s d = Listing keys
       ∧ NoDup (Name <$> keys)
       ∧ (∀ k, k ∈ Name <$> keys ↔ cached s k ∨ k ∈ names)
       ∧ (∀ e, e ∈ keys → (InCach e = true ↔ cached s (Name e)))
       ∧ (∀ k, k ∈ names →
            ∃ e, e ∈ keys ∧ Name e = k
                 ∧ (InCach e = true ↔ cached s k)))
  ∧ durable_keys disk_ab ["a"; "b"]
  ∧ HandleList "GET" (Load NewStorage disk_ab "a").1 disk_ab
      = Listing [mkList "a" true; mkList "b" false].
Proof.
  split; [| by vm_compute].
  intros D H s d names Hd Hnd. unfold durable_keys in Hd.
  exists (cached_entries s ++ disk_only_entries s names).
  assert (Hmem : ∀ k,
    k ∈ Name <$> (cached_entries s ++ disk_only_entries s names)
    ↔ cached s k ∨ k ∈ names).
  { intros k. rewrite fmap_app, elem_of_app,
      elem_of_cached_names, elem_of_disk_only_names.
    destruct (decide (cached s k)); tauto. }
  assert (Hflag : ∀ e,
    e ∈ cached_entries s ++ disk_only_entries s names →
    (InCach e = true ↔ cached s (Name e))).
  { intros e [He|He]%elem_of_app.
    - apply cached_entries_flag in He as [-> Hc]. tauto.
    - apply disk_only_entries_flag in He as [-> Hc].
      split; [discriminate | tauto]. }
  split; [| split; [| split; [| split]]].
  - unfold HandleList. simpl. by rewrite Hd.
  - by apply listing_NoDup.
  - exact Hmem.
  - exact Hflag.
  - intros k Hk.
    assert (Hin : k ∈ Name <$>
      (cached_entries s ++ disk_only_entries s names))
      by (apply Hmem; by right).
    apply list_elem_of_fmap in Hin as [e [-> He]].
    exists e. split; [done |]. split; [done |]. by apply Hflag.
Qed.

Lemma HandleList_complete_witness :
  durable_keys disk_ab ["a"; "b"] ∧ NoDup ["a"; "b"]
  ∧ ∃ keys : list List,
      HandleList "GET" (mkStorage {[ "a" := Obj "a" hello ]}) disk_ab
        = Listing keys
      ∧ NoDup (Name <$> keys).
Proof.
  assert (Hd : durable_keys disk_ab ["a"; "b"]) by (vm_compute; reflexivity).
  assert (Hnd : NoDup ["a"; "b"]) 
    by (apply (bool_decide_unpack _); vm_compute; exact I).
  destruct (proj1 HandleList_complete _ _
              (mkStorage {[ "a" := Obj "a" hello ]}) disk_ab _ Hd Hnd)
    as (keys & HL & HN & _).
  split; [exact Hd |]. split; [exact Hnd |]. exists keys. by split.
Defined.

(** ** Failures of the durable layer *)

(** C7, the claim refuted: reading "a" from the empty disk fails because
    the file does not exist, reading it from the damaged disk fails with
    an I/O error, and [Load] hands the two callers the same value, the
    zero [obj] with found = false. *)
Lemma Load_same_for_missing_and_io_error :
  durable_read_fails disk_empty "a" (PathError "open" "/storage/a" ENOENT)
  ∧ durable_read_fails disk_io_error "a" (PathError "read" "/storage/a" EIO)
  ∧ Load NewStorage disk_empty "a" = (NewStorage, (obj_zero, false))
  ∧ Load NewStorage disk_io_error "a" = (NewStorage, (obj_zero, false))
  ∧ Load NewStorage disk_io_error "a" = Load NewStorage disk_empty "a".
Proof. vm_compute. repeat split; done. Qed.

(** C7, amended.  For every key absent from the cache, when the durable
    read fails, for whatever reason, [Load] returns the zero [obj] with
    found = false and leaves the cache as it is; a read that fails with
    an I/O error and one that fails because the object is missing give
    the caller the same outcome. *)
Theorem Load_read_failure_not_distinguished {D} `{!DurableLayer D}
    (s : Storage) (d d' : D) (key : string) (e e' : error) :
  ¬ cached s key →
  durable_read_fails d key e → durable_read_fails d' key e' →
  Load s d key = (s, (obj_zero, false))
  ∧ found (Load s d key) = false
  ∧ Load s d key = Load s d' key.
Proof.
  unfold cached, durable_read_fails. intros Hk%eq_None_not_Some Hr Hr'.
  rewrite (Load_miss_error _ _ _ e), (Load_miss_error _ _ _ e') by done.
  done.
Qed.

Lemma Load_read_failure_not_distinguished_witness :
  ¬ cached NewStorage "a"
  ∧ durable_read_fails disk_io_error "a" (PathError "read" "/storage/a" EIO)
  ∧ durable_read_fails disk_empty "a" (PathError "open" "/storage/a" ENOENT)
  ∧ found (Load NewStorage disk_io_error "a") = false
  ∧ Load NewStorage disk_io_error "a" = Load NewStorage disk_empty "a".
Proof.
  assert (Hk : ¬ cached NewStorage "a") by (intros [o Ho]; done).
  assert (Hr : durable_read_fails disk_io_error "a"
                 (PathError "read" "/storage/a" EIO)) by reflexivity.
  assert (Hr' : durable_read_fails disk_empty "a"
                  (PathError "open" "/storage/a" ENOENT)) by reflexivity.
  destruct (Load_read_failure_not_distinguished
              NewStorage disk_io_error disk_empty "a" _ _ Hk Hr Hr')
    as (_ & Hf & Heq).
  repeat split; assumption.
Defined.

(** C8, the claim refuted: with the root directory missing the
    enumeration fails, and the GET listing does not come back to its
    caller with an error value: it panics. *)
Lemma HandleList_panics_without_root :
  os_ReadDir disk_no_root STORAGE_DIR
    = Err (PathError "open" "/storage" ENOENT)
  ∧ HandleList "GET" NewStorage disk_no_root
      = Panicf "/storage" (PathError "open" "/storage" ENOENT)
  ∧ ¬ returns_to_caller (HandleList "GET" NewStorage disk_no_root).
Proof. vm_compute. repeat split; tauto. Qed.

(** C8, amended.  The failures of [Save] and [Load] are returned to the
    caller: a failed durable write makes [Save] return the write's
    error, a failed durable read makes [Load] return found = false.  A
    failed enumeration is not: the GET listing panics through
    [log.Panicf] with the directory and the error, gives its caller no
    listing and no error value, and leaves table and disk as they were. *)
Theorem failures_returned_except_listing {D} `{!DurableLayer D}
    (s : Storage) (d : D) :
  (∀ key data e, ¬ cached s key →
     (os_WriteFile d (object_path key) data).2 = Some e →
     (Save s d key data).2 = Some e)
  ∧ (∀ key e, ¬ cached s key → durable_read_fails d key e →
       found (Load s d key) = false)
  ∧ (∀ e, os_ReadDir d STORAGE_DIR = Err e →
       HandleList "GET" s d = Panicf STORAGE_DIR e
       ∧ ¬ returns_to_caller (HandleList "GET" s d)
       ∧ step (OpList "GET") (s, d) = (s, d)).
Proof.
  split; [| split].
  - unfold cached. intros key data e Hk%eq_None_not_Some Hw.
    by rewrite Save_fresh.
  - unfold cached, durable_read_fails. intros key e Hk%eq_None_not_Some Hr.
    by rewrite (Load_miss_error _ _ _ e).
  - intros e He. unfold HandleList. simpl. rewrite He. simpl. tauto.
Qed.

Lemma failures_returned_except_listing_witness :
  (¬ cached NewStorage "a"
   ∧ (os_WriteFile disk_no_root (object_path "a") hello).2
       = Some (PathError "open" "/storage/a" ENOENT)
   ∧ (Save NewStorage disk_no_root "a" hello).2
       = Some (PathError "open" "/storage/a" ENOENT))
  ∧ (durable_read_fails disk_no_root "a" (PathError "open" "/storage/a" ENOENT)
     ∧ found (Load NewStorage disk_no_root "a") = false)
  ∧ (os_ReadDir disk_no_root STORAGE_DIR
       = Err (PathError "open" "/storage" ENOENT)
     ∧ HandleList "GET" NewStorage disk_no_root
         = Panicf STORAGE_DIR (PathError "open" "/storage" ENOENT)).
Proof.
  assert (Hk : ¬ cached NewStorage "a") by (intros [o Ho]; done).
  assert (Hw : (os_WriteFile disk_no_root (object_path "a") hello).2
                 = Some (PathError "open" "/storage/a" ENOENT))
    by reflexivity.
  assert (Hr : durable_read_fails disk_no_root "a"
                 (PathError "open" "/storage/a" ENOENT)) by reflexivity.
  assert (Hd : os_ReadDir disk_no_root STORAGE_DIR
                 = Err (PathError "open" "/storage" ENOENT)) by reflexivity.
  destruct (failures_returned_except_listing NewStorage disk_no_root)
    as (HS & HL & HP).
  split; [| split].
  - split; [exact Hk |]. split; [exact Hw |]. exact (HS _ _ _ Hk Hw).
  - split; [exact Hr |]. exact (HL _ _ Hk Hr).
  - split; [exact Hd |]. exact (proj1 (HP _ Hd)).
Defined.

(** C9.  For every key that was never saved, so that it is neither in
    the cache nor readable from the durable layer, [Load] returns
    found = false. *)
Theorem Load_never_saved {D} `{!DurableLayer D}
    (s : Storage) (d : D) (key : string) (e : error) :
  ¬ cached s key → durable_read_fails d key e →
  found (Load s d key) = false.
Proof.
  unfold cached, durable_read_fails. intros Hk%eq_None_not_Some Hr.
  by rewrite (Load_miss_error _ _ _ e).
Qed.

Lemma Load_never_saved_witness :
  ¬ cached NewStorage "nope"
  ∧ durable_read_fails disk_ab "nope" (PathError "open" "/storage/nope" ENOENT)
  ∧ found (Load NewStorage disk_ab "nope") = false.
Proof.
  assert (Hk : ¬ cached NewStorage "nope") by (intros [o Ho]; done).
  assert (Hr : durable_read_fails disk_ab "nope"
                 (PathError "open" "/storage/nope" ENOENT)) by reflexivity.
  split; [exact Hk |]. split; [exact Hr |].
  exact (Load_never_saved NewStorage disk_ab "nope" _ Hk Hr).
Defined.

(** ** The cache only grows *)

(** C10.  For every single [Save], [Load] or listing step and every key:
    if the cache maps the key to an object before the step, it maps it
    to the same object after the step; so the key set of the cache after
    the step includes the key set before it. *)
Theorem cache_monotone {D} `{!DurableLayer D}
    (o : operation) (st : Storage * D) (k : string) (B : obj) :
  files st.1 !! k = Some B →
  files (step o st).1 !! k = Some B
  ∧ dom (files st.1) ⊆ dom (files (step o st).1).
Proof.
  assert (Hkeep : ∀ k' B', files st.1 !! k' = Some B' →
                           files (step o st).1 !! k' = Some B').
  { intros k' B' Hk'. destruct o as [key data | key | method]; simpl.
    - by apply Save_keeps.
    - by apply Load_keeps.
    - done. }
  intros Hk. split; [by apply Hkeep |].
  intros k' [B' HB']%elem_of_dom. apply elem_of_dom.
  exists B'. by apply Hkeep.
Qed.

Lemma cache_monotone_witness :
  files (mkStorage {[ "a" := Obj "a" hello ]}, disk_a).1 !! "a"
    = Some (Obj "a" hello)
  ∧ files (step (OpSave "b" world)
             (mkStorage {[ "a" := Obj "a" hello ]}, disk_a)).1 !! "a"
      = Some (Obj "a" hello).
Proof.
  assert (Hk : files (mkStorage {[ "a" := Obj "a" hello ]}, disk_a).1 !! "a"
               = Some (Obj "a" hello)) by reflexivity.
  split; [exact Hk |].
  exact (proj1 (cache_monotone (OpSave "b" world)
                  (mkStorage {[ "a" := Obj "a" hello ]}, disk_a) "a" _ Hk)).
Defined.

(** * Further properties of the code *)

(** ** The table under [Save] and [Load] *)

Lemma Save_cached_rejected_witness :
  cached (mkStorage {[ "a" := Obj "a" hello ]}) "a"
  ∧ Save (mkStorage {[ "a" := Obj "a" hello ]}) disk_a "a" world
    = (mkStorage {[ "a" := Obj "a" hello ]}, disk_a,
       Some (Errorf_already_exists "a")).
Proof.
  assert (Hc : cached (mkStorage {[ "a" := Obj "a" hello ]}) "a")
    by (eexists; reflexivity).
  split; [exact Hc |].
  exact (Save_cached_rejected _ disk_a "a" world Hc).
Defined.

(** A key that is in the cache is served from the cache alone: [Load]
    returns the cached object with found = true, leaves the table as it
    is, and gives the same result on every disk. *)
Theorem Load_hit_ignores_disk {D} `{!DurableLayer D}
    (s : Storage) (d d' : D) (key : string) (o : obj) :
  files s !! key = Some o →
  Load s d key = (s, (o, true)) ∧ Load s d' key = Load s d key.
Proof. intros Hk. by rewrite !(Load_hit _ _ _ _ Hk). Qed.

Lemma Load_hit_ignores_disk_witness :
  files (mkStorage {[ "a" := Obj "a" hello ]}) !! "a" = Some (Obj "a" hello)
  ∧ Load (mkStorage {[ "a" := Obj "a" hello ]}) disk_no_root "a"
    = (mkStorage {[ "a" := Obj "a" hello ]}, (Obj "a" hello, true))
  ∧ Load (mkStorage {[ "a" := Obj "a" hello ]}) disk_io_error "a"
    = Load (mkStorage {[ "a" := Obj "a" hello ]}) disk_no_root "a".
Proof.
  assert (Hk : files (mkStorage {[ "a" := Obj "a" hello ]}) !! "a"
               = Some (Obj "a" hello)) by reflexivity.
  split; [exact Hk |].
  exact (Load_hit_ignores_disk _ disk_no_root disk_io_error "a" _ Hk).
Defined.

Lemma Save_other {D} `{!DurableLayer D}
    (s : Storage) (d : D) (key : string) (data : bytes) (k : string) :
  key ≠ k → files (Save s d key data).1.1 !! k = files s !! k.
Proof.
  intros Hne. destruct (files s !! key) as [o'|] eqn:Hkey.
  - by rewrite (Save_present _ _ _ _ o').
  - rewrite Save_fresh by done. simpl. by rewrite lookup_insert_ne.
Qed.

Lemma Load_other {D} `{!DurableLayer D}
    (s : Storage) (d : D) (key : string) (k : string) :
  key ≠ k → files (Load s d key).1 !! k = files s !! k.
Proof.
  intros Hne. destruct (files s !! key) as [o'|] eqn:Hkey.
  - by rewrite (Load_hit _ _ _ o').
  - destruct (os_ReadFile d (object_path key)) as [file|e] eqn:Hr.
    + rewrite (Load_miss_read _ _ _ file) by done. simpl.
      by rewrite lookup_insert_ne.
    + by rewrite (Load_miss_error _ _ _ e).
Qed.

(** An operation changes the table at most at the key it is called
    with: the entry of every other key, present or absent, is the same
    after the step as before it. *)
Theorem step_other_keys_unchanged {D} `{!DurableLayer D}
    (o : operation) (st : Storage * D) (k : string) :
  op_key o ≠ Some k →
  files (step o st).1 !! k = files st.1 !! k.
Proof.
  intros Hne. destruct o as [key data | key | method]; simpl in *.
  - apply Save_other. congruence.
  - apply Load_other. congruence.
  - done.
Qed.

Lemma step_other_keys_unchanged_witness :
  op_key (OpSave "b" world) ≠ Some "a"
  ∧ files (step (OpSave "b" world) (NewStorage, disk_a)).1 !! "a"
    = files (NewStorage, disk_a).1 !! "a".
Proof.
  assert (Hne : op_key (OpSave "b" world) ≠ Some "a") by discriminate.
  split; [exact Hne |].
  exact (step_other_keys_unchanged (OpSave "b" world)
           (NewStorage, disk_a) "a" Hne).
Defined.

(** ** Invariants over sequences of operations *)

Lemma step_well_named {D} `{!DurableLayer D}
    (o : operation) (st : Storage * D) :
  well_named st.1 → well_named (step o st).1.
Proof.
  intros Hwn k ob Hk. destruct (decide (op_key o = Some k)) as [Heq|Hne].
  - destruct st as [s d].
    destruct o as [key data | key | method]; simpl in *; [| | done].
    + injection Heq as ->.
      destruct (files s !! k) as [o'|] eqn:Hkey.
      * rewrite (Save_present _ _ _ _ o') in Hk by done. by apply Hwn.
      * rewrite Save_fresh in Hk by done. simpl in Hk.
        rewrite lookup_insert_eq in Hk. by injection Hk as <-.
    + injection Heq as ->.
      destruct (files s !! k) as [o'|] eqn:Hkey.
      * rewrite (Load_hit _ _ _ o') in Hk by done. by apply Hwn.
      * destruct (os_ReadFile d (object_path k)) as [file|e] eqn:Hr.
        -- rewrite (Load_miss_read _ _ _ file) in Hk by done. simpl in Hk.
           rewrite lookup_insert_eq in Hk. by injection Hk as <-.
        -- rewrite (Load_miss_error _ _ _ e) in Hk by done. by apply Hwn.
  - destruct o as [key data | key | method]; simpl in *.
    + rewrite Save_other in Hk by congruence. by apply Hwn.
    + rewrite Load_other in Hk by congruence. by apply Hwn.
    + by apply Hwn.
Qed.

Lemma run_snoc {D} `{!DurableLayer D}
    (ops : list operation) (o : operation) (st : Storage * D) :
  run (ops ++ [o]) st = step o (run ops st).
Proof. unfold run. by rewrite foldl_app. Qed.

(** The table of a store created by [NewStorage] holds every object
    under the object's own name, after any sequence of [Save], [Load]
    and listing operations on any disk. *)
Theorem run_well_named {D} `{!DurableLayer D}
    (ops : list operation) (d : D) (k : string) (o : obj) :
  files (run ops (NewStorage, d)).1 !! k = Some o → name o = k.
Proof.
  revert k o. change (well_named (run ops (NewStorage, d)).1).
  induction ops as [|op ops IH] using rev_ind.
  - intros k o Hk. simpl in Hk. by rewrite lookup_empty in Hk.
  - rewrite run_snoc. by apply step_well_named.
Qed.

Lemma run_well_named_witness :
  files (run [OpLoad "a"; OpSave "b" world; OpList "GET"]
           (NewStorage, disk_a)).1 !! "a" = Some (Obj "a" hello)
  ∧ name (Obj "a" hello) = "a".
Proof.
  assert (Hk : files (run [OpLoad "a"; OpSave "b" world; OpList "GET"]
                        (NewStorage, disk_a)).1 !! "a"
               = Some (Obj "a" hello)) by (vm_compute; reflexivity).
  split; [exact Hk |].
  exact (run_well_named [OpLoad "a"; OpSave "b" world; OpList "GET"]
           disk_a "a" _ Hk).
Defined.

Lemma run_keeps {D} `{!DurableLayer D}
    (ops : list operation) (st : Storage * D) (k : string) (o : obj) :
  files st.1 !! k = Some o → files (run ops st).1 !! k = Some o.
Proof.
  intros Hk. induction ops as [|op ops IH] using rev_ind; [done |].
  rewrite run_snoc. destruct op as [key data | key | method]; simpl.
  - by apply Save_keeps.
  - by apply Load_keeps.
  - done.
Qed.

(** Objects in the cache are immutable: once the table holds an object
    for a key, [Load] of that key returns that object with found = true
    after any sequence of [Save], [Load] and listing operations, and a
    [Save] of that key is rejected, whatever the disk has become. *)
Theorem cached_object_immutable {D} `{!DurableLayer D}
    (ops : list operation) (st : Storage * D) (k : string) (o : obj) :
  files st.1 !! k = Some o →
  (Load (run ops st).1 (run ops st).2 k).2 = (o, true)
  ∧ ∀ data, (Save (run ops st).1 (run ops st).2 k data).2
            = Some (Errorf_already_exists k).
Proof.
  intros Hk. pose proof (run_keeps ops st k o Hk) as Hr. split.
  - by rewrite (Load_hit _ _ _ _ Hr).
  - intros data. by rewrite (Save_present _ _ _ _ _ Hr).
Qed.

Lemma cached_object_immutable_witness :
  files (mkStorage {[ "a" := Obj "a" hello ]}, disk_empty).1 !! "a"
    = Some (Obj "a" hello)
  ∧ (Load (run [OpSave "a" world; OpSave "b" world; OpLoad "a"]
             (mkStorage {[ "a" := Obj "a" hello ]}, disk_empty)).1
          (run [OpSave "a" world; OpSave "b" world; OpLoad "a"]
             (mkStorage {[ "a" := Obj "a" hello ]}, disk_empty)).2 "a").2
    = (Obj "a" hello, true).
Proof.
  assert (Hk : files (mkStorage {[ "a" := Obj "a" hello ]}, disk_empty).1
                 !! "a" = Some (Obj "a" hello)) by reflexivity.
  split; [exact Hk |].
  exact (proj1 (cached_object_immutable
                  [OpSave "a" world; OpSave "b" world; OpLoad "a"]
                  (mkStorage {[ "a" := Obj "a" hello ]}, disk_empty)
                  "a" _ Hk)).
Defined.

(** A [Save] whose durable write failed cannot be retried and is
    visible to readers: after it, every [Save] of the same key returns
    the already-exists error without touching table or disk, and [Load]
    of the key returns the data of the failed call with found = true. *)
Theorem Save_failed_write_then_retry {D} `{!DurableLayer D}
    (s s1 : Storage) (d d1 : D) (key : string) (data : bytes) (e : error) :
  ¬ cached s key →
  os_WriteFile d (object_path key) data = (d1, Some e) →
  Save s d key data = (s1, d1, Some e) →
  (∀ data2, Save s1 d1 key data2 = (s1, d1, Some (Errorf_already_exists key)))
  ∧ Load s1 d1 key = (s1, (Obj key data, true)).
Proof.
  unfold cached. intros Hk%eq_None_not_Some Hw HS.
  rewrite Save_fresh, Hw in HS by done. simpl in HS.
  injection HS as <-.
  assert (Hc : files (mkStorage (<[key:=Obj key data]> (files s))) !! key
               = Some (Obj key data)) by (simpl; by rewrite lookup_insert_eq).
  split.
  - intros data2. by rewrite (Save_present _ _ _ _ _ Hc).
  - by rewrite (Load_hit _ _ _ _ Hc).
Qed.

Lemma Save_failed_write_then_retry_witness :
  ¬ cached NewStorage "a"
  ∧ Save (mkStorage {[ "a" := Obj "a" hello ]}) disk_read_only "a" world
    = (mkStorage {[ "a" := Obj "a" hello ]}, disk_read_only,
       Some (Errorf_already_exists "a"))
  ∧ Load (mkStorage {[ "a" := Obj "a" hello ]}) disk_read_only "a"
    = (mkStorage {[ "a" := Obj "a" hello ]}, (Obj "a" hello, true)).
Proof.
  assert (Hk : ¬ cached NewStorage "a") by (intros [o Ho]; done).
  assert (Hw : os_WriteFile disk_read_only (object_path "a") hello
               = (disk_read_only, Some (PathError "open" "/storage/a" EACCES)))
    by reflexivity.
  assert (HS : Save NewStorage disk_read_only "a" hello
               = (mkStorage {[ "a" := Obj "a" hello ]}, disk_read_only,
                  Some (PathError "open" "/storage/a" EACCES)))
    by (vm_compute; reflexivity).
  destruct (Save_failed_write_then_retry _ _ _ _ _ _ _ Hk Hw HS) as [H1 H2].
  split; [exact Hk |]. split; [exact (H1 world) | exact H2].
Defined.

(** ** The listing, in two situations *)

(** Straight after [NewStorage] the listing is the directory's names, in
    the directory's order, each with the flag false. *)
Theorem HandleList_fresh_store {D} `{!DurableLayer D}
    (d : D) (names : list string) :
  durable_keys d names →
  HandleList "GET" NewStorage d
  = Listing ((λ f, mkList f false) <$> names).
Proof.
  unfold durable_keys, HandleList. intros Hd. simpl. rewrite Hd.
  unfold cached_entries, disk_only_entries. simpl.
  rewrite map_to_list_empty. simpl. do 2 f_equal.
  clear Hd. induction names as [|nm names IH]; [done |].
  rewrite filter_cons, lookup_empty.
  case_decide; [by rewrite IH | done].
Qed.

Lemma HandleList_fresh_store_witness :
  durable_keys disk_ab ["a"; "b"]
  ∧ HandleList "GET" NewStorage disk_ab
    = Listing [mkList "a" false; mkList "b" false].
Proof.
  assert (Hd : durable_keys disk_ab ["a"; "b"]) by (vm_compute; reflexivity).
  split; [exact Hd |].
  exact (HandleList_fresh_store disk_ab _ Hd).
Defined.

(** When every key of the cache is also a name of the directory, the
    names of the listing are the directory's names, each once and up to
    order; the listing then has as many entries as the directory. *)
Theorem HandleList_names_of_directory {D} `{!DurableLayer D}
    (s : Storage) (d : D) (names : list string) :
  durable_keys d names → NoDup names →
  (∀ k, cached s k → k ∈ names) →
  ∃ keys : list List,
    HandleList "GET" s d = Listing keys
    ∧ Name <$> keys ≡ₚ names
    ∧ length keys = length names.
Proof.
  unfold durable_keys. intros Hd Hnd Hsub.
  exists (cached_entries s ++ disk_only_entries s names).
  assert (Hperm : Name <$> (cached_entries s ++ disk_only_entries s names)
                  ≡ₚ names).
  { apply NoDup_Permutation; [by apply listing_NoDup | done |].
    intros k. rewrite fmap_app, elem_of_app,
      elem_of_cached_names, elem_of_disk_only_names.
    split; [intros [Hc | [Hn _]]; auto |].
    intros Hn. destruct (decide (cached s k)); auto. }
  split; [| split].
  - unfold HandleList. simpl. by rewrite Hd.
  - exact Hperm.
  - apply Permutation_length in Hperm. by rewrite length_fmap in Hperm.
Qed.

Lemma HandleList_names_of_directory_witness :
  durable_keys disk_ab ["a"; "b"] ∧ NoDup ["a"; "b"]
  ∧ ∃ keys : list List,
      HandleList "GET" (mkStorage {[ "b" := Obj "b" world ]}) disk_ab
        = Listing keys
      ∧ length keys = 2.
Proof.
  assert (Hd : durable_keys disk_ab ["a"; "b"]) by (vm_compute; reflexivity).
  assert (Hnd : NoDup ["a"; "b"])
    by (apply (bool_decide_unpack _); vm_compute; exact I).
  assert (Hsub : ∀ k, cached (mkStorage {[ "b" := Obj "b" world ]}) k
                      → k ∈ ["a"; "b"]).
  { intros k [o Ho]. simpl in Ho.
    apply lookup_singleton_Some in Ho as [<- _]. set_solver. }
  destruct (HandleList_names_of_directory _ disk_ab _ Hd Hnd Hsub)
    as (keys & HL & _ & Hlen).
  split; [exact Hd |]. split; [exact Hnd |]. exists keys. by split.
Defined.

(** ** The handlers *)

Section handler_equations.
Context {D : Type} `{!DurableLayer D}.
Implicit Types (r : Request) (s : Storage) (d : D) (key : string).

Lemma slice_from_length_app (p k : string) :
  slice_from (String.length p) (p +:+ k) = Some k.
Proof. induction p as [|a p IH]; [done | exact IH]. Qed.

Lemma slice_from_None (n : nat) (str : string) :
  slice_from n str = None ↔ String.length str < n.
Proof.
  revert str. induction n as [|n IH]; intros [|a str]; simpl.
  - split; [done | lia].
  - split; [done | lia].
  - split; [lia | done].
  - rewrite IH. lia.
Qed.

Lemma HandleUpload_wrong_method r s d :
  Method r ≠ "POST" →
  HandleUpload r s d
  = (s, d, Replied [http_Error "Метод не поддерживается" 405]).
Proof.
  intros Hm%String.eqb_neq. unfold HandleUpload, http_MethodPost.
  by rewrite Hm.
Qed.

Lemma HandleUpload_saves r s d key data :
  Method r = "POST" →
  slice_from UPLOAD_PREFIX_LEN (URL_Path r) = Some key →
  ReadAll_Body r = Ok data →
  HandleUpload r s d
  = ((Save s d key data).1,
     match (Save s d key data).2 with
     | Some e => Replied [http_Error_of e 409]
     | None =>
         Replied [WriteHeader 200;
                  Fprintf ("Объект " +:+ key +:+ " успешно сохранен")]
     end).
Proof.
  intros Hm Hp Hb. unfold HandleUpload, http_MethodPost.
  rewrite Hm, String.eqb_refl, Hp, Hb. simpl.
  by destruct (Save s d key data) as [[s1 d1] [e|]].
Qed.

Lemma HandleDownload_loads r s d key :
  Method r = "GET" →
  slice_from DOWNLOAD_PREFIX_LEN (URL_Path r) = Some key →
  HandleDownload r s d
  = ((Load s d key).1,
     if (Load s d key).2.2
     then Replied [WriteHeader 200; Write (body (Load s d key).2.1)]
     else Replied [http_Error "Объект не найден" 404]).
Proof.
  intros Hm Hp. unfold HandleDownload, http_MethodGet.
  rewrite Hm, String.eqb_refl, Hp. simpl.
  by destruct (Load s d key) as [s1 [data [|]]].
Qed.

Lemma POST_request key data :
  Method (POST key data) = "POST"
  ∧ slice_from UPLOAD_PREFIX_LEN (URL_Path (POST key data)) = Some key
  ∧ ReadAll_Body (POST key data) = Ok data.
Proof.
  split; [done |]. split; [| done].
  exact (slice_from_length_app "/upload/" key).
Qed.

Lemma GET_request key :
  Method (GET key) = "GET"
  ∧ slice_from DOWNLOAD_PREFIX_LEN (URL_Path (GET key)) = Some key.
Proof. split; [done |]. exact (slice_from_length_app "/download/" key). Qed.

End handler_equations.

(** An upload of a key that is not in the cache, whose body is read and
    whose durable write succeeds, is answered with status 200 and the
    confirmation text; a download of the same key after it is answered
    with status 200 and the uploaded bytes, and changes nothing. *)
Theorem upload_then_download {D} `{!DurableLayer D}
    (r r' : Request) (s : Storage) (d : D) (key : string) (data : bytes) :
  Method r = "POST" → URL_Path r = "/upload/" +:+ key →
  ReadAll_Body r = Ok data →
  Method r' = "GET" → URL_Path r' = "/download/" +:+ key →
  ¬ cached s key →
  (os_WriteFile d (object_path key) data).2 = None →
  (HandleUpload r s d).2
  = Replied [WriteHeader 200;
             Fprintf ("Объект " +:+ key +:+ " успешно сохранен")]
  ∧ HandleDownload r' (HandleUpload r s d).1.1 (HandleUpload r s d).1.2
    = ((HandleUpload r s d).1.1, Replied [WriteHeader 200; Write data]).
Proof.
  unfold cached. intros Hm Hp Hb Hm' Hp' Hk%eq_None_not_Some Hw.
  rewrite (HandleUpload_saves r s d key data Hm); [| | done].
  2:{ rewrite Hp. exact (slice_from_length_app "/upload/" key). }
  rewrite Save_fresh, Hw by done. simpl. split; [done |].
  rewrite (HandleDownload_loads r' _ _ key Hm').
  2:{ rewrite Hp'. exact (slice_from_length_app "/download/" key). }
  rewrite (Load_hit _ _ _ (Obj key data)); [done |].
  simpl. by rewrite lookup_insert_eq.
Qed.

Lemma upload_then_download_witness :
  ¬ cached NewStorage "report.txt"
  ∧ (os_WriteFile disk_empty (object_path "report.txt") hello).2 = None
  ∧ (HandleUpload (POST "report.txt" hello) NewStorage disk_empty).2
    = Replied [WriteHeader 200;
               Fprintf ("Объект " +:+ "report.txt" +:+ " успешно сохранен")]
  ∧ (HandleDownload (GET "report.txt")
       (HandleUpload (POST "report.txt" hello) NewStorage disk_empty).1.1
       (HandleUpload (POST "report.txt" hello) NewStorage disk_empty).1.2).2
    = Replied [WriteHeader 200; Write hello].
Proof.
  assert (Hk : ¬ cached NewStorage "report.txt") by (intros [o Ho]; done).
  assert (Hw : (os_WriteFile disk_empty (object_path "report.txt") hello).2
               = None) by reflexivity.
  destruct (upload_then_download (POST "report.txt" hello) (GET "report.txt")
              NewStorage disk_empty "report.txt" hello
              eq_refl eq_refl eq_refl eq_refl eq_refl Hk Hw) as [H1 H2].
  split; [exact Hk |]. split; [exact Hw |]. split; [exact H1 |].
  by rewrite H2.
Defined.

(** An upload of a key that is in the cache is answered with status 409
    and the already-exists error, whatever its body, and changes neither
    table nor disk; a download of the key is still answered with status
    200 and the cached body. *)
Theorem upload_of_cached_key_conflicts {D} `{!DurableLayer D}
    (r r' : Request) (s : Storage) (d : D) (key : string)
    (data : bytes) (o : obj) :
  Method r = "POST" → URL_Path r = "/upload/" +:+ key →
  ReadAll_Body r = Ok data →
  Method r' = "GET" → URL_Path r' = "/download/" +:+ key →
  files s !! key = Some o →
  HandleUpload r s d
  = (s, d, Replied [http_Error_of (Errorf_already_exists key) 409])
  ∧ HandleDownload r' s d = (s, Replied [WriteHeader 200; Write (body o)]).
Proof.
  intros Hm Hp Hb Hm' Hp' Hk. split.
  - rewrite (HandleUpload_saves r s d key data Hm); [| | done].
    2:{ rewrite Hp. exact (slice_from_length_app "/upload/" key). }
    by rewrite (Save_present _ _ _ _ _ Hk).
  - rewrite (HandleDownload_loads r' _ _ key Hm').
    2:{ rewrite Hp'. exact (slice_from_length_app "/download/" key). }
    by rewrite (Load_hit _ _ _ _ Hk).
Qed.

Lemma upload_of_cached_key_conflicts_witness :
  files (mkStorage {[ "a" := Obj "a" hello ]}) !! "a" = Some (Obj "a" hello)
  ∧ HandleUpload (POST "a" world) (mkStorage {[ "a" := Obj "a" hello ]}) disk_a
    = (mkStorage {[ "a" := Obj "a" hello ]}, disk_a,
       Replied [http_Error_of (Errorf_already_exists "a") 409])
  ∧ HandleDownload (GET "a") (mkStorage {[ "a" := Obj "a" hello ]}) disk_a
    = (mkStorage {[ "a" := Obj "a" hello ]},
       Replied [WriteHeader 200; Write hello]).
Proof.
  assert (Hk : files (mkStorage {[ "a" := Obj "a" hello ]}) !! "a"
               = Some (Obj "a" hello)) by reflexivity.
  split; [exact Hk |].
  exact (upload_of_cached_key_conflicts (POST "a" world) (GET "a")
           (mkStorage {[ "a" := Obj "a" hello ]}) disk_a "a" world _
           eq_refl eq_refl eq_refl eq_refl eq_refl Hk).
Defined.

(** An upload whose durable write fails is answered with status 409 and
    the write's error, and its bytes are served all the same: a download
    of the key after it is answered with status 200 and the bytes of the
    failed upload. *)
Theorem failed_upload_is_served {D} `{!DurableLayer D}
    (r r' : Request) (s : Storage) (d : D) (key : string)
    (data : bytes) (e : error) :
  Method r = "POST" → URL_Path r = "/upload/" +:+ key →
  ReadAll_Body r = Ok data →
  Method r' = "GET" → URL_Path r' = "/download/" +:+ key →
  ¬ cached s key →
  (os_WriteFile d (object_path key) data).2 = Some e →
  (HandleUpload r s d).2 = Replied [http_Error_of e 409]
  ∧ (HandleDownload r' (HandleUpload r s d).1.1 (HandleUpload r s d).1.2).2
    = Replied [WriteHeader 200; Write data].
Proof.
  unfold cached. intros Hm Hp Hb Hm' Hp' Hk%eq_None_not_Some Hw.
  rewrite (HandleUpload_saves r s d key data Hm); [| | done].
  2:{ rewrite Hp. exact (slice_from_length_app "/upload/" key). }
  rewrite Save_fresh, Hw by done. simpl. split; [done |].
  rewrite (HandleDownload_loads r' _ _ key Hm').
  2:{ rewrite Hp'. exact (slice_from_length_app "/download/" key). }
  rewrite (Load_hit _ _ _ (Obj key data)); [done |].
  simpl. by rewrite lookup_insert_eq.
Qed.

Lemma failed_upload_is_served_witness :
  ¬ cached NewStorage "a"
  ∧ (os_WriteFile disk_read_only (object_path "a") hello).2
    = Some (PathError "open" "/storage/a" EACCES)
  ∧ (HandleUpload (POST "a" hello) NewStorage disk_read_only).2
    = Replied [http_Error_of (PathError "open" "/storage/a" EACCES) 409]
  ∧ (HandleDownload (GET "a")
       (HandleUpload (POST "a" hello) NewStorage disk_read_only).1.1
       (HandleUpload (POST "a" hello) NewStorage disk_read_only).1.2).2
    = Replied [WriteHeader 200; Write hello].
Proof.
  assert (Hk : ¬ cached NewStorage "a") by (intros [o Ho]; done).
  assert (Hw : (os_WriteFile disk_read_only (object_path "a") hello).2
               = Some (PathError "open" "/storage/a" EACCES)) by reflexivity.
  destruct (failed_upload_is_served (POST "a" hello) (GET "a")
              NewStorage disk_read_only "a" hello _
              eq_refl eq_refl eq_refl eq_refl eq_refl Hk Hw) as [H1 H2].
  split; [exact Hk |]. split; [exact Hw |]. split; [exact H1 | exact H2].
Defined.

(** A status 200 from [HandleUpload] is sound: it is written only for a
    POST whose path has a key after its first eight bytes, whose body
    was read, whose key was not in the cache, and whose durable write
    returned no error; the table is then the old one with the key bound
    to the uploaded bytes, and the disk is the one left by the write. *)
Theorem HandleUpload_ok_inversion {D} `{!DurableLayer D}
    (r : Request) (s s1 : Storage) (d d1 : D) (rest : list writer_call) :
  HandleUpload r s d = (s1, d1, Replied (WriteHeader 200 :: rest)) →
  Method r = "POST"
  ∧ ∃ key data,
      slice_from UPLOAD_PREFIX_LEN (URL_Path r) = Some key
      ∧ ReadAll_Body r = Ok data
      ∧ ¬ cached s key
      ∧ os_WriteFile d (object_path key) data = (d1, None)
      ∧ files s1 = <[key := Obj key data]> (files s).
Proof.
  intros HU. destruct (decide (Method r = "POST")) as [Hm|Hm].
  2:{ by rewrite (HandleUpload_wrong_method r s d Hm) in HU. }
  split; [done |].
  destruct (slice_from UPLOAD_PREFIX_LEN (URL_Path r)) as [key|] eqn:Hp.
  2:{ unfold HandleUpload, http_MethodPost in HU.
      by rewrite Hm, String.eqb_refl, Hp in HU. }
  destruct (ReadAll_Body r) as [data|e] eqn:Hb.
  2:{ unfold HandleUpload, http_MethodPost in HU.
      by rewrite Hm, String.eqb_refl, Hp, Hb in HU. }
  rewrite (HandleUpload_saves r s d key data Hm Hp Hb) in HU.
  exists key, data. split; [done |]. split; [done |].
  destruct (files s !! key) as [o|] eqn:Hk.
  { by rewrite (Save_present _ _ _ _ _ Hk) in HU. }
  rewrite Save_fresh in HU by done. simpl in HU.
  destruct (os_WriteFile d (object_path key) data) as [d' [e|]];
    simpl in HU; [done |].
  injection HU as <- <- _.
  split; [unfold cached; by rewrite Hk; intros [? ?] |]. done.
Qed.

Lemma HandleUpload_ok_inversion_witness :
  HandleUpload (POST "a" hello) NewStorage disk_empty
  = (mkStorage {[ "a" := Obj "a" hello ]}, disk_a,
     Replied [WriteHeader 200; Fprintf "Объект a успешно сохранен"])
  ∧ Method (POST "a" hello) = "POST".
Proof.
  assert (HU : HandleUpload (POST "a" hello) NewStorage disk_empty
    = (mkStorage {[ "a" := Obj "a" hello ]}, disk_a,
       Replied [WriteHeader 200; Fprintf "Объект a успешно сохранен"]))
    by (vm_compute; reflexivity).
  split; [exact HU |].
  exact (proj1 (HandleUpload_ok_inversion _ _ _ _ _ _ HU)).
Defined.

(** [HandleUpload] changes the table or the disk only for a POST whose
    path has a key after its first eight bytes, whose body was read and
    whose key is not in the cache.  A request with another method, with
    an unreadable body or for a cached key leaves both as they were. *)
Theorem HandleUpload_changes_only_for_fresh_key {D} `{!DurableLayer D}
    (r : Request) (s : Storage) (d : D) :
  (HandleUpload r s d).1 ≠ (s, d) →
  Method r = "POST"
  ∧ ∃ key data,
      slice_from UPLOAD_PREFIX_LEN (URL_Path r) = Some key
      ∧ ReadAll_Body r = Ok data
      ∧ ¬ cached s key.
Proof.
  intros Hch. destruct (decide (Method r = "POST")) as [Hm|Hm].
  2:{ by rewrite (HandleUpload_wrong_method r s d Hm) in Hch. }
  split; [done |].
  destruct (slice_from UPLOAD_PREFIX_LEN (URL_Path r)) as [key|] eqn:Hp.
  2:{ unfold HandleUpload, http_MethodPost in Hch.
      by rewrite Hm, String.eqb_refl, Hp in Hch. }
  destruct (ReadAll_Body r) as [data|e] eqn:Hb.
  2:{ unfold HandleUpload, http_MethodPost in Hch.
      by rewrite Hm, String.eqb_refl, Hp, Hb in Hch. }
  exists key, data. split; [done |]. split; [done |].
  intros [o Hk]. apply Hch.
  rewrite (HandleUpload_saves r s d key data Hm Hp Hb).
  by rewrite (Save_present _ _ _ _ _ Hk).
Qed.

Lemma HandleUpload_changes_only_for_fresh_key_witness :
  (HandleUpload (POST "a" hello) NewStorage disk_read_only).1
    ≠ (NewStorage, disk_read_only)
  ∧ Method (POST "a" hello) = "POST".
Proof.
  assert (Hch : (HandleUpload (POST "a" hello) NewStorage disk_read_only).1
                ≠ (NewStorage, disk_read_only))
    by (vm_compute; discriminate).
  split; [exact Hch |].
  exact (proj1 (HandleUpload_changes_only_for_fresh_key _ _ _ Hch)).
Defined.

(** [HandleDownload] answers "not found" (status 404) exactly for a GET
    whose path has a key after its first ten bytes that is not in the
    cache and whose file cannot be read; the table is then unchanged. *)
Theorem HandleDownload_not_found_iff {D} `{!DurableLayer D}
    (r : Request) (s : Storage) (d : D) :
  (HandleDownload r s d).2 = Replied [http_Error "Объект не найден" 404]
  ↔ Method r = "GET"
    ∧ ∃ key e,
        slice_from DOWNLOAD_PREFIX_LEN (URL_Path r) = Some key
        ∧ ¬ cached s key
        ∧ durable_read_fails d key e
        ∧ (HandleDownload r s d).1 = s.
Proof.
  split.
  - intros HD. destruct (decide (Method r = "GET")) as [Hm|Hm].
    2:{ apply String.eqb_neq in Hm.
        unfold HandleDownload, http_MethodGet in HD.
        rewrite Hm in HD. simpl in HD. congruence. }
    split; [done |].
    destruct (slice_from DOWNLOAD_PREFIX_LEN (URL_Path r)) as [key|] eqn:Hp.
    2:{ unfold HandleDownload, http_MethodGet in HD.
        by rewrite Hm, String.eqb_refl, Hp in HD. }
    rewrite (HandleDownload_loads r s d key Hm Hp) in HD |- *.
    destruct (files s !! key) as [o|] eqn:Hk.
    { by rewrite (Load_hit _ _ _ _ Hk) in HD. }
    destruct (os_ReadFile d (object_path key)) as [file|e] eqn:Hr.
    { by rewrite (Load_miss_read _ _ _ _ Hk Hr) in HD. }
    exists key, e. split; [done |].
    split; [unfold cached; rewrite Hk; by intros [? ?] |].
    split; [done |]. by rewrite (Load_miss_error _ _ _ _ Hk Hr).
  - unfold cached, durable_read_fails.
    intros (Hm & key & e & Hp & Hk%eq_None_not_Some & Hr & _).
    rewrite (HandleDownload_loads r s d key Hm Hp).
    by rewrite (Load_miss_error _ _ _ _ Hk Hr).
Qed.

Lemma HandleDownload_not_found_iff_witness :
  (HandleDownload (GET "nope") NewStorage disk_ab).2
    = Replied [http_Error "Объект не найден" 404]
  ∧ Method (GET "nope") = "GET".
Proof.
  assert (HD : (HandleDownload (GET "nope") NewStorage disk_ab).2
               = Replied [http_Error "Объект не найден" 404])
    by (vm_compute; reflexivity).
  split; [exact HD |].
  exact (proj1 (proj1 (HandleDownload_not_found_iff _ _ _) HD)).
Defined.

(** The first download of an object that is on disk but not in the
    cache is answered with status 200 and an empty body, and caches the
    object; the next download of the key is answered with status 200
    and the content of the file. *)
Theorem download_of_disk_only_key {D} `{!DurableLayer D}
    (r : Request) (s : Storage) (d : D) (key : string) (B : bytes) :
  Method r = "GET" → URL_Path r = "/download/" +:+ key →
  ¬ cached s key → durable_body d key B →
  (HandleDownload r s d).2 = Replied [WriteHeader 200; Write []]
  ∧ files (HandleDownload r s d).1 = <[key := Obj key B]> (files s)
  ∧ (HandleDownload r (HandleDownload r s d).1 d).2
    = Replied [WriteHeader 200; Write B].
Proof.
  unfold cached, durable_body. intros Hm Hp Hk%eq_None_not_Some Hr.
  assert (Hs : slice_from DOWNLOAD_PREFIX_LEN (URL_Path r) = Some key).
  { rewrite Hp. exact (slice_from_length_app "/download/" key). }
  rewrite (HandleDownload_loads r s d key Hm Hs).
  rewrite (Load_miss_read _ _ _ _ Hk Hr). simpl.
  split; [done |]. split; [done |].
  rewrite (HandleDownload_loads r _ d key Hm Hs).
  rewrite (Load_hit _ _ _ (Obj key B)); [done |].
  simpl. by rewrite lookup_insert_eq.
Qed.

Lemma download_of_disk_only_key_witness :
  ¬ cached NewStorage "a" ∧ durable_body disk_a "a" hello
  ∧ (HandleDownload (GET "a") NewStorage disk_a).2
    = Replied [WriteHeader 200; Write []]
  ∧ (HandleDownload (GET "a")
       (HandleDownload (GET "a") NewStorage disk_a).1 disk_a).2
    = Replied [WriteHeader 200; Write hello].
Proof.
  assert (Hk : ¬ cached NewStorage "a") by (intros [o Ho]; done).
  assert (Hr : durable_body disk_a "a" hello) by reflexivity.
  destruct (download_of_disk_only_key (GET "a") NewStorage disk_a "a" hello
              eq_refl eq_refl Hk Hr) as (H1 & _ & H2).
  split; [exact Hk |]. split; [exact Hr |]. split; [exact H1 | exact H2].
Defined.

(** The key is cut out of the path without a look at the path's length:
    a POST handled by [HandleUpload] panics exactly when the path is
    shorter than the eight bytes of "/upload/", and a GET handled by
    [HandleDownload] exactly when it is shorter than the ten bytes of
    "/download/"; a panicking call leaves table and disk as they were. *)
Theorem handlers_panic_iff_path_short {D} `{!DurableLayer D}
    (r : Request) (s : Storage) (d : D) :
  (Method r = "POST" →
     ((HandleUpload r s d).2 = SlicePanic
      ↔ String.length (URL_Path r) < 8)
     ∧ ((HandleUpload r s d).2 = SlicePanic
        → (HandleUpload r s d).1 = (s, d)))
  ∧ (Method r = "GET" →
       ((HandleDownload r s d).2 = SlicePanic
        ↔ String.length (URL_Path r) < 10)
       ∧ ((HandleDownload r s d).2 = SlicePanic
          → (HandleDownload r s d).1 = s)).
Proof.
  split; intros Hm.
  - change 8 with UPLOAD_PREFIX_LEN. rewrite <- slice_from_None.
    destruct (slice_from UPLOAD_PREFIX_LEN (URL_Path r)) as [key|] eqn:Hp.
    + destruct (ReadAll_Body r) as [data|e] eqn:Hb.
      * rewrite (HandleUpload_saves r s d key data Hm Hp Hb). simpl.
        split; [| by destruct ((Save s d key data).2)].
        split; [by destruct ((Save s d key data).2) | done].
      * unfold HandleUpload, http_MethodPost.
        rewrite Hm, String.eqb_refl, Hp, Hb. simpl. done.
    + unfold HandleUpload, http_MethodPost.
      rewrite Hm, String.eqb_refl, Hp. simpl. done.
  - change 10 with DOWNLOAD_PREFIX_LEN. rewrite <- slice_from_None.
    destruct (slice_from DOWNLOAD_PREFIX_LEN (URL_Path r)) as [key|] eqn:Hp.
    + rewrite (HandleDownload_loads r s d key Hm Hp). simpl.
      split; [| by destruct ((Load s d key).2.2)].
      split; [by destruct ((Load s d key).2.2) | done].
    + unfold HandleDownload, http_MethodGet.
      rewrite Hm, String.eqb_refl, Hp. simpl. done.
Qed.

Lemma handlers_panic_iff_path_short_witness :
  Method (mkRequest "POST" "/up" (Ok hello)) = "POST"
  ∧ String.length (URL_Path (mkRequest "POST" "/up" (Ok hello))) < 8
  ∧ (HandleUpload (mkRequest "POST" "/up" (Ok hello)) NewStorage disk_empty).2
    = SlicePanic.
Proof.
  assert (Hm : Method (mkRequest "POST" "/up" (Ok hello)) = "POST")
    by reflexivity.
  assert (Hlen : String.length (URL_Path (mkRequest "POST" "/up" (Ok hello)))
                 < 8) by (simpl; lia).
  split; [exact Hm |]. split; [exact Hlen |].
  exact (proj2 (proj1 (proj1 (handlers_panic_iff_path_short
                                (mkRequest "POST" "/up" (Ok hello))
                                NewStorage disk_empty) Hm)) Hlen).
Defined.
